(** * Admission webhook dispatch core of extensions/pkg/webhook/handler.go

    Shallow embedding of [HandlerBuilder] (WithMutator, WithValidator, Build,
    buildTypesMap) and of [handler.Handle] / [handle].  Go maps keyed by a
    GroupVersionKind are stdpp [gmap]s; the builder's map keyed by the
    Mutator interface value is an association list in first-insertion
    order, and [Build] visits it in an arbitrary order (Go leaves map
    iteration order unspecified).  The collaborators the package imports
    (the scheme, the universal decoder, meta.Accessor, semantic equality,
    encoding/json, the JSON-patch library) are the fields of the class
    [Runtime]. *)

From stdpp Require Import base gmap strings list fin_maps sorting.
From Stdlib Require Import ZArith Permutation.

Open Scope Z_scope.

(** ** metav1.GroupVersionKind *)

Record GroupVersionKind := GVK {
  gvk_group : string;
  gvk_version : string;
  gvk_kind : string
}.

#[global] Instance GroupVersionKind_eq_dec : EqDecision GroupVersionKind.
Proof. solve_decision. Defined.

#[global] Instance GroupVersionKind_countable : Countable GroupVersionKind.
Proof.
  refine (inj_countable'
            (fun g => (gvk_group g, gvk_version g, gvk_kind g))
            (fun '(g, v, k) => GVK g v k) _).
  intros []; reflexivity.
Defined.

(** runtime.APIVersionInternal *)
Definition APIVersionInternal : string := "__internal".

(** ** admission.Response, as the three helpers used by [handle] build it *)

(** The error carried by admission.Errored; the fmt/errors message texts are
    represented by their origin. *)
Inductive ErrorReason (Err : Type) :=
  | ErrUnexpectedKind (k : GroupVersionKind)   (* "unexpected request kind %s" *)
  | ErrDecode                                  (* "could not decode request" *)
  | ErrAccessor                                (* "could not get accessor for" *)
  | ErrDecodeOld                               (* "could not decode old object" *)
  | ErrMutate (e : Err)                        (* the Mutate error, unwrapped *)
  | ErrMarshal                                 (* json.Marshal error *)
  | ErrCreatePatch.                            (* jsonpatch.CreatePatch error *)
Arguments ErrUnexpectedKind {Err} k.
Arguments ErrDecode {Err}.
Arguments ErrAccessor {Err}.
Arguments ErrDecodeOld {Err}.
Arguments ErrMutate {Err} e.
Arguments ErrMarshal {Err}.
Arguments ErrCreatePatch {Err}.

Inductive Response (Err PatchOp : Type) :=
  (** admission.ValidationResponse(true, ""): Allow, no patch *)
  | Allowed
  (** Allowed with the JSON patch operations of admission.PatchResponseFromRaw *)
  | Patched (ops : list PatchOp)
  (** admission.Errored(code, err): Deny *)
  | Errored (code : Z) (reason : ErrorReason Err).
Arguments Allowed {Err PatchOp}.
Arguments Patched {Err PatchOp} ops.
Arguments Errored {Err PatchOp} code reason.

Definition StatusBadRequest : Z := 400.
Definition StatusInternalServerError : Z := 500.

(** ** Calls made to the collaborators, in order *)
Inductive Call :=
  | CallDecode        (* decoder.Decode(req.Object.Raw, ...) *)
  | CallAccessor      (* meta.Accessor(obj) *)
  | CallDecodeOld     (* decoder.Decode(ar.OldObject.Raw, ...) *)
  | CallPredicates    (* extensionspredicate.EvalGeneric *)
  | CallMutate.       (* m.Mutate(ctx, newObj, oldObj) *)

(** ** The request-handling monad: a log of calls, and either an early
    [return] of a response or a value to continue with. *)
Definition Flow (R A : Type) : Type := (list Call * (R + A))%type.

Definition ret {R A} (a : A) : Flow R A := ([], inr a).
Definition return_early {R A} (r : R) : Flow R A := ([], inl r).
Definition call {R} (c : Call) : Flow R unit := ([c], inr tt).
Definition bind {R A B} (m : Flow R A) (k : A -> Flow R B) : Flow R B :=
  match m with
  | (l, inl r) => (l, inl r)
  | (l, inr a) => let '(l', rb) := k a in (l ++ l', rb)
  end.

Notation "x <- m ;; k" := (bind m (fun x => k))
  (at level 100, m at next level, right associativity).
Notation "m ;;; k" := (bind m (fun _ => k))
  (at level 100, right associativity).

(** The response a flow ends with, and the calls it made on the way. *)
Definition response {R} (m : Flow R R) : R :=
  match snd m with inl r => r | inr r => r end.
Definition calls {R A} (m : Flow R A) : list Call := fst m.

(** Raw bytes of a request object and of a json.Marshal result. *)
Abbreviation bytes := (list Byte.byte).

(** The collaborators handler.go calls into. *)
Class Runtime (Obj Acc PatchOp : Type) := {
  (** apiutil.GVKForObject(t, scheme) *)
  GVKForObject : Obj -> option GroupVersionKind;
  (** decoder.Decode(raw, nil, t.DeepCopyObject()): decode into a copy of
      the prototype [t] *)
  decode : Obj -> bytes -> option Obj;
  (** meta.Accessor(obj) *)
  meta_accessor : Obj -> option Acc;
  (** equality.Semantic.DeepEqual *)
  semantic_deep_equal : Obj -> Obj -> bool;
  (** json.Marshal *)
  json_marshal : Obj -> option bytes;
  (** jsonpatch.CreatePatch, called by admission.PatchResponseFromRaw *)
  create_patch : bytes -> bytes -> option (list PatchOp)
}.

(** errors.Wrap(err, "could not inject into the mutator") *)
Inductive InjectError (E : Type) := InjectWrap (e : E).
Arguments InjectWrap {E} e.

(** Whether a response is Allow-with-patch. *)
Definition is_patch {E P} (r : Response E P) : bool :=
  match r with Patched _ => true | _ => false end.

Section Webhook.

(** runtime.Object values (value semantics: DeepCopyObject is the identity),
    the context.Context, the error type, the meta accessor, JSON-patch
    operations. *)
Context {Obj Ctx Err Acc PatchOp : Type} `{!Runtime Obj Acc PatchOp}.

Abbreviation Resp := (Response Err PatchOp).

(** A Mutator interface value.  [mutator_key] is the interface value's
    identity (the key of the builder's map); [Mutate] returns the new state of
    the object it was handed and its error; [mutator_is_validator] says
    whether the dynamic type also has the Validate method, i.e. whether the
    type assertion [m.(Validator)] succeeds. *)
Record Mutator := {
  mutator_key : positive * bool;
  Mutate : Ctx -> Obj -> option Obj -> Obj * option Err;
  mutator_is_validator : bool
}.

(** A Validator interface value. *)
Record Validator := {
  validator_key : positive;
  Validate : Ctx -> Obj -> option Obj -> Obj * option Err
}.

(** Modelled from the spec: hybridValidator (the Validator Adapter, defined
    outside handler.go): "Wraps a Validator as a Mutator:
    mutate(ctx, newResource, old) = validate(newResource, old) ... Marked
    internally so the Dispatcher can apply the no-patch rule", i.e. the
    wrapper answers the [m.(Validator)] assertion.  Its identity is taken
    from the wrapped validator's (the second key component marks it). *)
Definition hybridValidator (v : Validator) : Mutator := {|
  mutator_key := (validator_key v, true);
  Mutate := Validate v;
  mutator_is_validator := true
|}.

(** A controller-runtime predicate, as the generic-event filter applied to
    the decoded object. *)
Definition Predicate := Obj -> bool.

(** Modelled from the spec: extensionspredicate.EvalGeneric (in
    extensions/pkg/predicate): the chain "is AND-combined, short-circuiting
    on first false". *)
Fixpoint EvalGeneric (obj : Obj) (predicates : list Predicate) : bool :=
  match predicates with
  | [] => true
  | p :: ps => if p obj then EvalGeneric obj ps else false
  end.

(** admission.Request: the fields [handle] reads. *)
Record Request := {
  req_kind : GroupVersionKind;     (* ar.Kind *)
  req_object : bytes;              (* req.Object.Raw *)
  req_old_object : bytes           (* req.OldObject.Raw *)
}.

(** admission.PatchResponseFromRaw(original, current) *)
Definition PatchResponseFromRaw (original current : bytes) : Resp :=
  match create_patch original current with
  | Some ops => Patched ops
  | None => Errored StatusInternalServerError ErrCreatePatch
  end.

(** [handle], lines 157-215. *)
Definition handle (ctx : Ctx) (req : Request) (m : Mutator) (t : Obj)
    (predicates : list Predicate) : Flow Resp Resp :=
  (* Decode object *)
  call CallDecode ;;;
  obj <- match decode t (req_object req) with
         | None => return_early (Errored StatusBadRequest ErrDecode)
         | Some o => ret o
         end ;;
  (* Get object accessor *)
  call CallAccessor ;;;
  _accessor <- match meta_accessor obj with
               | None => return_early (Errored StatusBadRequest ErrAccessor)
               | Some a => ret a
               end ;;
  (* Only UPDATE and DELETE operations have oldObjects. *)
  oldObj <- (if negb (Nat.eqb (length (req_old_object req)) 0) then
               call CallDecodeOld ;;;
               match decode t (req_old_object req) with
               | None => return_early (Errored StatusBadRequest ErrDecodeOld)
               | Some o => ret (Some o)
               end
             else ret None) ;;
  (* Run object through predicates *)
  call CallPredicates ;;;
  if negb (EvalGeneric obj predicates) then ret Allowed else
  (* Process the resource *)
  call CallMutate ;;;
  let '(newObj, err) := Mutate m ctx obj oldObj in
  match err with
  | Some e => return_early (Errored StatusBadRequest (ErrMutate e))
  | None =>
      let isValidator := mutator_is_validator m in
      (* Return a patch response if the resource should be changed *)
      if negb isValidator && negb (semantic_deep_equal obj newObj) then
        match json_marshal obj with
        | None => ret (Errored StatusInternalServerError ErrMarshal)
        | Some oldObjMarshaled =>
            match json_marshal newObj with
            | None => ret (Errored StatusInternalServerError ErrMarshal)
            | Some newObjMarshaled =>
                ret (PatchResponseFromRaw oldObjMarshaled newObjMarshaled)
            end
        end
      (* Return a validation response if the resource should not be changed *)
      else ret Allowed
  end.

(** ** HandlerBuilder, lines 39-100 *)

Record HandlerBuilder := {
  (* mutatorMap map[Mutator][]runtime.Object, in first-insertion order *)
  b_mutatorMap : list (Mutator * list Obj);
  b_predicates : list Predicate
}.

(** NewBuilder *)
Definition NewBuilder : HandlerBuilder :=
  {| b_mutatorMap := []; b_predicates := [] |}.

(** b.mutatorMap[mutator] = append(b.mutatorMap[mutator], types...) *)
Fixpoint append_types (mutator : Mutator) (types : list Obj)
    (mm : list (Mutator * list Obj)) : list (Mutator * list Obj) :=
  match mm with
  | [] => [(mutator, types)]
  | (m', ts) :: rest =>
      if decide (mutator_key m' = mutator_key mutator)
      then (m', ts ++ types) :: rest
      else (m', ts) :: append_types mutator types rest
  end.

(** WithMutator *)
Definition WithMutator (b : HandlerBuilder) (mutator : Mutator)
    (types : list Obj) : HandlerBuilder :=
  {| b_mutatorMap := append_types mutator types (b_mutatorMap b);
     b_predicates := b_predicates b |}.

(** WithValidator *)
Definition WithValidator (b : HandlerBuilder) (validator : Validator)
    (types : list Obj) : HandlerBuilder :=
  let mutator := hybridValidator validator in
  {| b_mutatorMap := append_types mutator types (b_mutatorMap b);
     b_predicates := b_predicates b |}.

(** WithPredicates *)
Definition WithPredicates (b : HandlerBuilder) (predicates : list Predicate)
    : HandlerBuilder :=
  {| b_mutatorMap := b_mutatorMap b;
     b_predicates := b_predicates b ++ predicates |}.

(** buildTypesMap, lines 218-231 *)
Fixpoint buildTypesMap_loop (types : list Obj)
    (typesMap : gmap GroupVersionKind Obj) : option (gmap GroupVersionKind Obj) :=
  match types with
  | [] => Some typesMap
  | t :: rest =>
      match GVKForObject t with
      | None => None   (* "could not get GroupVersionKind from object" *)
      | Some gvk => buildTypesMap_loop rest (<[gvk := t]> typesMap)
      end
  end.

Definition buildTypesMap (types : list Obj) : option (gmap GroupVersionKind Obj) :=
  buildTypesMap_loop types ∅.

(** The built admission handler (struct handler, lines 102-109). *)
Record handler := {
  h_typesMap : gmap GroupVersionKind Obj;
  h_mutatorMap : gmap GroupVersionKind Mutator;
  h_predicates : list Predicate
}.

(** Lines 93-94: h.typesMap[gvk] = obj; h.mutatorMap[gvk] = mutator *)
Definition set_entry (mutator : Mutator) (h : handler)
    (entry : GroupVersionKind * Obj) : handler :=
  {| h_typesMap := <[entry.1 := entry.2]> (h_typesMap h);
     h_mutatorMap := <[entry.1 := mutator]> (h_mutatorMap h);
     h_predicates := h_predicates h |}.

(** The loop of lines 86-96, visiting the builder's entries in [order]. *)
Fixpoint build_loop (order : list (Mutator * list Obj)) (h : handler)
    : option handler :=
  match order with
  | [] => Some h
  | (m, t) :: rest =>
      match buildTypesMap t with
      | None => None
      | Some typesMap =>
          (* for gvk, obj := range typesMap *)
          build_loop rest (fold_left (set_entry m) (map_to_list typesMap) h)
      end
  end.

(** Build, visiting b.mutatorMap in the given order. *)
Definition Build (b : HandlerBuilder) (order : list (Mutator * list Obj))
    : option handler :=
  build_loop order {| h_typesMap := ∅; h_mutatorMap := ∅;
                      h_predicates := b_predicates b |}.

(** [Build] succeeded with result [h] under some iteration order of Go's
    map b.mutatorMap. *)
Definition BuildsTo (b : HandlerBuilder) (h : handler) : Prop :=
  exists order, order ≡ₚ b_mutatorMap b /\ Build b order = Some h.

(** ** handler.Handle, lines 122-155 *)

(** The identifier with the same group and kind and the internal version. *)
Definition internal_gvk (k : GroupVersionKind) : GroupVersionKind :=
  GVK (gvk_group k) APIVersionInternal (gvk_kind k).

(** for gvk, v := range m { if gvk.Version == runtime.APIVersionInternal &&
    gvk.Group == k.Group && gvk.Kind == k.Kind { ...; break } } *)
Fixpoint scan_internal {V} (k : GroupVersionKind)
    (entries : list (GroupVersionKind * V)) : option V :=
  match entries with
  | [] => None
  | (gvk, v) :: rest =>
      if bool_decide (gvk_version gvk = APIVersionInternal) &&
         bool_decide (gvk_group gvk = gvk_group k) &&
         bool_decide (gvk_kind gvk = gvk_kind k)
      then Some v else scan_internal k rest
  end.

(** Exact lookup, else the internal-version scan over the map's entries. *)
Definition lookup_kind {V} (k : GroupVersionKind) (m : gmap GroupVersionKind V)
    : option V :=
  match m !! k with
  | Some v => Some v
  | None => scan_internal k (map_to_list m)
  end.

Definition Handle (h : handler) (ctx : Ctx) (req : Request) : Flow Resp Resp :=
  let kind := req_kind req in
  t <- match lookup_kind kind (h_typesMap h) with
       | Some t => ret t
       | None => return_early (Errored StatusBadRequest (ErrUnexpectedKind kind))
       end ;;
  mutator <- match lookup_kind kind (h_mutatorMap h) with
             | Some m => ret m
             | None => return_early (Errored StatusBadRequest (ErrUnexpectedKind kind))
             end ;;
  handle ctx req mutator t (h_predicates h).

(** The old object handed to Mutate: absent for empty old bytes, else the
    decoded one ([None] when decoding fails). *)
Definition decoded_old (t : Obj) (req : Request) : option (option Obj) :=
  if Nat.eqb (length (req_old_object req)) 0 then Some None
  else match decode t (req_old_object req) with
       | Some o => Some (Some o)
       | None => None
       end.

(** The declaration of [g] that a build visiting [order] writes last: the
    last mutator in [order] declaring a type with identifier [g], with the
    last such type of its list. *)
Definition decl_step (g : GroupVersionKind) (acc : option (Mutator * Obj))
    (entry : Mutator * list Obj) : option (Mutator * Obj) :=
  fold_left (fun acc' t =>
    if bool_decide (GVKForObject t = Some g) then Some (entry.1, t) else acc')
    entry.2 acc.

Definition last_decl (order : list (Mutator * list Obj)) (g : GroupVersionKind)
    : option (Mutator * Obj) :=
  fold_left (decl_step g) order None.

(** ** handler.InjectFunc, lines 112-119 *)

(** for _, mutator := range h.mutatorMap { if err := f(mutator); err != nil
    { return errors.Wrap(...) } }; return nil.  [mutators] are the map's
    values in the visiting order; the result lists the mutators f was called
    on, in order, and the error returned. *)
Fixpoint InjectFunc {E} (f : Mutator -> option E) (mutators : list Mutator)
    : list Mutator * option (InjectError E) :=
  match mutators with
  | [] => ([], None)
  | mutator :: rest =>
      match f mutator with
      | Some err => ([mutator], Some (InjectWrap err))
      | None => let '(called, r) := InjectFunc f rest in (mutator :: called, r)
      end
  end.

(** InjectFunc on [h] returns [res] under some iteration order of Go's map
    h.mutatorMap. *)
Definition InjectFuncReturns {E} (f : Mutator -> option E) (h : handler)
    (res : list Mutator * option (InjectError E)) : Prop :=
  exists order, order ≡ₚ (map_to_list (h_mutatorMap h)).*2 /\ InjectFunc f order = res.

(** Whether an entry of the builder's map declares a type with identifier
    [g]. *)
Definition declares (g : GroupVersionKind) (entry : Mutator * list Obj) : bool :=
  existsb (fun t => bool_decide (GVKForObject t = Some g)) entry.2.


End Webhook.

(** ** A concrete instantiation: Widget objects of group "apps" *)
Module Widgets.

Record Widget := {
  w_version : string;
  w_kind : string;
  w_size : nat;
  w_nan : bool      (* a float64 field holding NaN *)
}.

#[global] Instance byte_eq_decision : EqDecision Byte.byte := Byte.byte_eq_dec.

#[global] Instance Widget_eq_dec : EqDecision Widget.
Proof. solve_decision. Defined.

(** A JSON patch operation replacing the whole document. *)
Inductive Op := ReplaceDoc (doc : list Byte.byte).

(** The scheme knows every widget type with a non-empty kind. *)
Definition gvk_of (w : Widget) : option GroupVersionKind :=
  if bool_decide (w_kind w = "") then None
  else Some (GVK "apps" (w_version w) (w_kind w)).

(** Raw bytes "{" followed by n bytes decode to a widget of size n. *)
Definition decode_widget (proto : Widget) (raw : list Byte.byte) : option Widget :=
  match raw with
  | b :: rest =>
      if Byte.eqb b Byte.x7b
      then Some {| w_version := w_version proto; w_kind := w_kind proto;
                   w_size := length rest; w_nan := false |}
      else None
  | [] => None
  end.

Definition accessor_of (w : Widget) : option unit :=
  if bool_decide (w_kind w = "WidgetList") then None else Some tt.

Definition widget_equal (a b : Widget) : bool := bool_decide (a = b).

(** json.Marshal fails on NaN ("json: unsupported value: NaN"). *)
Definition marshal_widget (w : Widget) : option (list Byte.byte) :=
  if w_nan w then None else Some (Byte.x7b :: repeat Byte.x31 (w_size w)).

Definition diff (before after : list Byte.byte) : option (list Op) :=
  if bool_decide (before = after) then Some [] else Some [ReplaceDoc after].

Definition apply_ops (doc : list Byte.byte) (ops : list Op) : option (list Byte.byte) :=
  Some (fold_left (fun _ '(ReplaceDoc d) => d) ops doc).

Definition resize (w : Widget) (n : nat) : Widget :=
  {| w_version := w_version w; w_kind := w_kind w; w_size := n; w_nan := w_nan w |}.

Abbreviation WMutator := (@Mutator Widget unit string).
Abbreviation WValidator := (@Validator Widget unit string).

(** M doubles the size. *)
Definition doubler : WMutator := {|
  mutator_key := (1%positive, false);
  Mutate := fun _ w _ => (resize w (2 * w_size w), None);
  mutator_is_validator := false |}.

(** A mutator type that also has a Validate method, registered with
    WithMutator; it doubles the size too. *)
Definition doubler_with_validate : WMutator := {|
  mutator_key := (2%positive, false);
  Mutate := fun _ w _ => (resize w (2 * w_size w), None);
  mutator_is_validator := true |}.

(** Sets a float field to NaN. *)
Definition nan_setter : WMutator := {|
  mutator_key := (3%positive, false);
  Mutate := fun _ w _ =>
    ({| w_version := w_version w; w_kind := w_kind w; w_size := w_size w;
        w_nan := true |}, None);
  mutator_is_validator := false |}.

(** V rejects the empty widget and (incidentally) doubles the size. *)
Definition size_validator : WValidator := {|
  validator_key := 4%positive;
  Validate := fun _ w _ =>
    (resize w (2 * w_size w),
     if Nat.eqb (w_size w) 0 then Some "invalid size" else None) |}.

Definition widget_v1 : Widget := {| w_version := "v1"; w_kind := "Widget"; w_size := 0; w_nan := false |}.
Definition widget_internal : Widget := {| w_version := APIVersionInternal; w_kind := "Widget"; w_size := 0; w_nan := false |}.
Definition widget_list : Widget := {| w_version := "v1"; w_kind := "WidgetList"; w_size := 0; w_nan := false |}.

Definition kind_v1 : GroupVersionKind := GVK "apps" "v1" "Widget".
Definition kind_v2 : GroupVersionKind := GVK "apps" "v2" "Widget".

(** "{1" : a widget of size 1; "x" : malformed. *)
Definition raw_size1 : list Byte.byte := [Byte.x7b; Byte.x31].
Definition raw_bad : list Byte.byte := [Byte.x78].

Definition create_req (k : GroupVersionKind) (raw : list Byte.byte) : Request :=
  {| req_kind := k; req_object := raw; req_old_object := [] |}.
Definition update_req (k : GroupVersionKind) (raw old : list Byte.byte) : Request :=
  {| req_kind := k; req_object := raw; req_old_object := old |}.

#[global] Instance widget_runtime : Runtime Widget unit Op := {
  GVKForObject := gvk_of;
  decode := decode_widget;
  meta_accessor := accessor_of;
  semantic_deep_equal := widget_equal;
  json_marshal := marshal_widget;
  create_patch := diff
}.

(** Objects decoded from [raw_size1] and their doubled and NaN versions. *)
Definition w_one : Widget := {| w_version := "v1"; w_kind := "Widget"; w_size := 1; w_nan := false |}.
Definition w_two : Widget := {| w_version := "v1"; w_kind := "Widget"; w_size := 2; w_nan := false |}.
Definition w_one_nan : Widget := {| w_version := "v1"; w_kind := "Widget"; w_size := 1; w_nan := true |}.
Definition w_list_one : Widget := {| w_version := "v1"; w_kind := "WidgetList"; w_size := 1; w_nan := false |}.

(** A builder: M for apps/v1 Widget, a Mutator that also implements
    Validator for the internal version, V for WidgetList. *)
Definition widget_builder : @HandlerBuilder Widget unit string :=
  WithValidator
    (WithMutator (WithMutator NewBuilder doubler [widget_v1])
       doubler_with_validate [widget_internal])
    size_validator [widget_list].

Definition empty_handler : @handler Widget unit string :=
  {| h_typesMap := ∅; h_mutatorMap := ∅; h_predicates := [] |}.

Definition widget_handler : @handler Widget unit string :=
  default empty_handler (Build widget_builder (b_mutatorMap widget_builder)).

(** The same identifier declared by two Mutators in two calls: M first,
    then the NaN setter. *)
Definition duplicate_builder : @HandlerBuilder Widget unit string :=
  WithMutator (WithMutator NewBuilder doubler [widget_v1]) nan_setter [widget_v1].

(** An iteration order of Go's map that visits the later registration first. *)
Definition duplicate_order : list (WMutator * list Widget) :=
  [(nan_setter, [widget_v1]); (doubler, [widget_v1])].

(** A builder registering only the Mutator that also implements Validator. *)
Definition dual_builder : @HandlerBuilder Widget unit string :=
  WithMutator NewBuilder doubler_with_validate [widget_v1].

Definition dual_handler : @handler Widget unit string :=
  default empty_handler (Build dual_builder (b_mutatorMap dual_builder)).

(** "{" : a widget of size 0. *)
Definition raw_size0 : list Byte.byte := [Byte.x7b].

(** An inject.Func that refuses the Validator Adapter's mutators. *)
Definition inject_plain (m : WMutator) : option string :=
  if snd (mutator_key m) then Some "validators take no injection" else None.

(** One Mutator serving two identifiers. *)
Definition shared_builder : @HandlerBuilder Widget unit string :=
  WithMutator NewBuilder doubler [widget_v1; widget_internal].

Definition shared_handler : @handler Widget unit string :=
  default empty_handler (Build shared_builder (b_mutatorMap shared_builder)).

End Widgets.

(** * Properties *)

Ltac flow_simpl :=
  cbn [bind call ret return_early response calls fst snd app negb andb] in *.

(** Case on the next decision [handle] takes: a lookup, a decode, a test,
    the result of Mutate. *)
Ltac flow_step :=
  flow_simpl;
  match goal with
  | |- context [match ?x with _ => _ end] =>
      let T := type of x in
      let T := eval hnf in T in
      lazymatch T with
      | (_ * _)%type => fail
      | _ => destruct x eqn:?
      end
  | |- context [Mutate ?m ?c ?o ?old] => destruct (Mutate m c o old) eqn:?
  end.

Section Properties.

Context {Obj Ctx Err Acc PatchOp : Type} `{!Runtime Obj Acc PatchOp}.

Abbreviation Resp := (Response Err PatchOp).

(** ** Lookup with the internal-version fallback *)

Lemma scan_internal_list_to_map {V} (k : GroupVersionKind)
    (l : list (GroupVersionKind * V)) :
  scan_internal k l = (list_to_map l : gmap GroupVersionKind V) !! internal_gvk k.
Proof.
  induction l as [|[g v] l IH]; simpl; [by rewrite lookup_empty|].
  rewrite lookup_insert. destruct g as [gg gv gk]; unfold internal_gvk; simpl.
  repeat case_bool_decide; simpl; subst; try done;
    case_decide as Heq; try done; inversion Heq; congruence.
Qed.

(** Whatever order Go's range visits the map in, at most one key carries the
    internal version for a given group and kind, so the scan finds it. *)
Lemma scan_internal_lookup {V} (k : GroupVersionKind)
    (m : gmap GroupVersionKind V) :
  scan_internal k (map_to_list m) = m !! internal_gvk k.
Proof. by rewrite scan_internal_list_to_map, list_to_map_to_list. Qed.

Lemma lookup_kind_spec {V} (k : GroupVersionKind) (m : gmap GroupVersionKind V) :
  lookup_kind k m =
    match m !! k with Some v => Some v | None => m !! internal_gvk k end.
Proof. unfold lookup_kind. by rewrite scan_internal_lookup. Qed.

(** C1: a Mutator made by the Validator Adapter (hybridValidator) never yields
    an Allow-with-patch response, whatever its wrapped Validate does to the
    object it is handed. *)
Theorem validator_never_patches (ctx : Ctx) (req : Request)
    (v : @Validator Obj Ctx Err) (t : Obj) (predicates : list Predicate) :
  is_patch (response (handle ctx req (hybridValidator v) t predicates)
              : Resp) = false.
Proof.
  unfold handle, hybridValidator. flow_simpl.
  repeat flow_step; done.
Qed.

(** ** The steps of [handle] *)

Lemma EvalGeneric_false (obj : Obj) (predicates : list Predicate) (p : Predicate) :
  p ∈ predicates -> p obj = false -> EvalGeneric obj predicates = false.
Proof.
  induction predicates as [|q qs IH]; simpl; intros Hin Hp.
  - by apply not_elem_of_nil in Hin.
  - apply elem_of_cons in Hin as [->|Hin]; [by rewrite Hp|].
    destruct (q obj); [by apply IH|done].
Qed.

(** The response-shaping step (lines 192-214), as a function of the
    Mutate result. *)
Definition shaped (m : @Mutator Obj Ctx Err) (obj : Obj) (res : Obj * option Err)
    : Resp :=
  match res with
  | (_, Some e) => Errored StatusBadRequest (ErrMutate e)
  | (newObj, None) =>
      if negb (mutator_is_validator m) && negb (semantic_deep_equal obj newObj)
      then match json_marshal obj, json_marshal newObj with
           | Some before, Some after => PatchResponseFromRaw before after
           | _, _ => Errored StatusInternalServerError ErrMarshal
           end
      else Allowed
  end.

(** A request whose objects decode and that passes the predicates ends in the
    response-shaping step, after calling Mutate once. *)
Lemma handle_reaches_mutate (ctx : Ctx) (req : Request) (m : @Mutator Obj Ctx Err)
    (t : Obj) (predicates : list Predicate) (obj : Obj) (a : Acc)
    (old : option Obj) :
  decode t (req_object req) = Some obj ->
  meta_accessor obj = Some a ->
  decoded_old t req = Some old ->
  EvalGeneric obj predicates = true ->
  response (handle ctx req m t predicates) = shaped m obj (Mutate m ctx obj old) /\
  CallMutate ∈ calls (handle ctx req m t predicates).
Proof.
  intros Hdec Hacc Hold Hpred. unfold decoded_old in Hold.
  unfold handle. flow_simpl. rewrite Hdec. flow_simpl. rewrite Hacc. flow_simpl.
  destruct (length (req_old_object req) =? 0)%nat; flow_simpl;
    [injection Hold as <-
    |destruct (decode t (req_old_object req)); [|discriminate];
     injection Hold as <-; flow_simpl];
    rewrite Hpred; flow_simpl; unfold shaped;
    (destruct (Mutate m ctx obj _) as [n [e|]]; flow_simpl;
     [split; [done|set_solver]|]);
    destruct (negb _ && negb _), (json_marshal obj), (json_marshal n);
    flow_simpl; (split; [done|set_solver]).
Qed.

(** C10: when the new object decodes but meta.Accessor fails on it, the
    response is Deny(400) with the accessor error, and only the decoder and
    meta.Accessor were called: the old object is not decoded, and neither the
    predicates nor Mutate run. *)
Theorem accessor_failure_denies (ctx : Ctx) (req : Request)
    (m : @Mutator Obj Ctx Err) (t : Obj) (predicates : list Predicate) (obj : Obj)
    (Hdec : decode t (req_object req) = Some obj)
    (Hacc : meta_accessor obj = None) :
  handle ctx req m t predicates =
    ([CallDecode; CallAccessor], inl (Errored StatusBadRequest ErrAccessor)).
Proof.
  unfold handle. flow_simpl. rewrite Hdec. flow_simpl. rewrite Hacc. reflexivity.
Qed.

(** C7: malformed new-object bytes give Deny(400, decode error); the old
    object is decoded only when its bytes are non-empty; non-empty old bytes
    that fail to decode give Deny(400); in both failure cases Mutate is not
    called. *)
Theorem decode_failures_deny (ctx : Ctx) (req : Request)
    (m : @Mutator Obj Ctx Err) (t : Obj) (predicates : list Predicate) :
  (decode t (req_object req) = None ->
     response (handle ctx req m t predicates) = Errored StatusBadRequest ErrDecode /\
     (CallMutate ∉ calls (handle ctx req m t predicates))) /\
  (CallDecodeOld ∈ calls (handle ctx req m t predicates) ->
     req_old_object req <> []) /\
  (req_old_object req <> [] -> decode t (req_old_object req) = None ->
     (exists reason, response (handle ctx req m t predicates) =
                       Errored StatusBadRequest reason) /\
     (CallMutate ∉ calls (handle ctx req m t predicates))).
Proof.
  split; [|split].
  - intros Hdec. unfold handle. flow_simpl. rewrite Hdec. flow_simpl.
    split; [done|set_solver].
  - unfold handle. repeat flow_step; simpl; intros Hin; try set_solver;
      intros Hnil; rewrite Hnil in *; simpl in *; discriminate.
  - intros Hne Hdec_old. unfold handle. flow_simpl.
    destruct (decode t (req_object req)); flow_simpl;
      [|split; [eauto|set_solver]].
    destruct (meta_accessor o); flow_simpl; [|split; [eauto|set_solver]].
    destruct (length (req_old_object req) =? 0)%nat eqn:Hlen.
    + apply Nat.eqb_eq, nil_length_inv in Hlen. contradiction.
    + flow_simpl. rewrite Hdec_old. flow_simpl. split; [eauto|set_solver].
Qed.

(** C6: a request kind with neither an exact entry nor an entry for its group
    and kind under the internal version is denied with 400 "unexpected request
    kind", before any decoding or Mutate call. *)
Theorem unrecognized_kind_denied (h : @handler Obj Ctx Err) (ctx : Ctx)
    (req : Request)
    (Hexact : h_typesMap h !! req_kind req = None)
    (Hinternal : h_typesMap h !! internal_gvk (req_kind req) = None) :
  (Handle h ctx req : Flow Resp Resp) =
    ([], inl (Errored StatusBadRequest (ErrUnexpectedKind (req_kind req)))).
Proof.
  unfold Handle. rewrite lookup_kind_spec, Hexact, Hinternal. reflexivity.
Qed.

(** C5: a request kind with no exact entry in either registry, whose group and
    kind are registered under the internal version, is dispatched to [handle]
    with that entry's prototype and Mutator. *)
Theorem internal_version_fallback (h : @handler Obj Ctx Err) (ctx : Ctx)
    (req : Request) (t : Obj) (m : @Mutator Obj Ctx Err)
    (Htypes : h_typesMap h !! req_kind req = None)
    (Hmutators : h_mutatorMap h !! req_kind req = None)
    (Htypes_int : h_typesMap h !! internal_gvk (req_kind req) = Some t)
    (Hmutators_int : h_mutatorMap h !! internal_gvk (req_kind req) = Some m) :
  (Handle h ctx req : Flow Resp Resp) = handle ctx req m t (h_predicates h).
Proof.
  unfold Handle. rewrite !lookup_kind_spec, Htypes, Htypes_int, Hmutators,
    Hmutators_int. flow_simpl.
  by destruct (handle ctx req m t (h_predicates h)).
Qed.

(** C4 (as amended): when the new object decodes and some predicate of the
    chain rejects it, Mutate is not called; the response is Allow with no
    patch when meta.Accessor succeeds and the old object is absent or
    decodes; otherwise it is Deny(400) from the step that failed: the
    accessor error, or the old-object decoding error. *)
Theorem predicate_rejects_allow (ctx : Ctx) (req : Request)
    (m : @Mutator Obj Ctx Err) (t : Obj) (predicates : list Predicate)
    (obj : Obj) (p : Predicate)
    (Hdec : decode t (req_object req) = Some obj)
    (Hin : p ∈ predicates) (Hrejects : p obj = false) :
  (CallMutate ∉ calls (handle ctx req m t predicates)) /\
  (is_Some (meta_accessor obj) ->
   forall old, decoded_old t req = Some old ->
   response (handle ctx req m t predicates) = (Allowed : Resp)) /\
  (meta_accessor obj = None ->
   response (handle ctx req m t predicates) =
     (Errored StatusBadRequest ErrAccessor : Resp)) /\
  (is_Some (meta_accessor obj) -> decoded_old t req = None ->
   response (handle ctx req m t predicates) =
     (Errored StatusBadRequest ErrDecodeOld : Resp)).
Proof.
  pose proof (EvalGeneric_false obj predicates p Hin Hrejects) as Hfalse.
  unfold decoded_old. unfold handle. flow_simpl. rewrite Hdec. flow_simpl.
  destruct (meta_accessor obj); flow_simpl;
    [|split; [set_solver|];
      split; [intros [? ?]; discriminate|];
      split; [done|intros [? ?]; discriminate]].
  destruct (length (req_old_object req) =? 0)%nat; flow_simpl.
  - rewrite Hfalse. flow_simpl.
    split; [set_solver|]. split; [done|]. split; [discriminate|].
    intros _ ?; discriminate.
  - destruct (decode t (req_old_object req)); flow_simpl.
    + rewrite Hfalse. flow_simpl.
      split; [set_solver|]. split; [done|]. split; [discriminate|].
      intros _ ?; discriminate.
    + split; [set_solver|]. split; [intros _ old Hold; discriminate|].
      split; [discriminate|done].
Qed.

(** C2 (as amended): once Mutate has returned no error, the response is
    Allow with no patch when the Mutator's type implements Validator (every
    Validator-Adapter handler does) or the object is semantically unchanged;
    otherwise it is the patch response from the JSON forms of the object
    before and after Mutate, or Deny(500) if json.Marshal fails.  An
    Allow-with-patch response therefore comes only from a Mutator that does
    not implement Validator and changed the object. *)
Theorem response_shaping (ctx : Ctx) (req : Request)
    (m : @Mutator Obj Ctx Err) (t : Obj) (predicates : list Predicate)
    (obj : Obj) (a : Acc) (old : option Obj) (newObj : Obj)
    (Hdec : decode t (req_object req) = Some obj)
    (Hacc : meta_accessor obj = Some a)
    (Hold : decoded_old t req = Some old)
    (Hpred : EvalGeneric obj predicates = true)
    (Hmut : Mutate m ctx obj old = (newObj, None)) :
  (mutator_is_validator m = false -> semantic_deep_equal obj newObj = false ->
   response (handle ctx req m t predicates) =
     match json_marshal obj, json_marshal newObj with
     | Some before, Some after => (PatchResponseFromRaw before after : Resp)
     | _, _ => Errored StatusInternalServerError ErrMarshal
     end) /\
  (mutator_is_validator m = true \/ semantic_deep_equal obj newObj = true ->
   response (handle ctx req m t predicates) = (Allowed : Resp)) /\
  (is_patch (response (handle ctx req m t predicates) : Resp) = true ->
   mutator_is_validator m = false /\ semantic_deep_equal obj newObj = false).
Proof.
  destruct (handle_reaches_mutate ctx req m t predicates obj a old Hdec Hacc Hold
              Hpred) as [Hresp _].
  rewrite Hresp, Hmut. unfold shaped.
  split; [|split].
  - intros -> ->. reflexivity.
  - intros [-> | ->]; [done|]. by rewrite andb_false_r.
  - destruct (mutator_is_validator m), (semantic_deep_equal obj newObj);
      simpl; try done.
Qed.

(** C3 (as amended): for a Mutator whose type does not implement Validator,
    that returns no error and changes the object: if json.Marshal fails on
    either form the response is Deny(500); otherwise, for any JSON-patch
    library whose CreatePatch output applied to its first argument gives its
    second, the response is Allow-with-patch and the patch applied to the
    serialized "before" object gives the serialized "after" object, unless
    CreatePatch itself fails (Deny(500)). *)
Theorem patch_round_trip
    (apply_patch : bytes -> list PatchOp -> option bytes)
    (Hlib : forall before after ops,
        create_patch before after = Some ops -> apply_patch before ops = Some after)
    (ctx : Ctx) (req : Request) (m : @Mutator Obj Ctx Err) (t : Obj)
    (predicates : list Predicate) (obj : Obj) (a : Acc) (old : option Obj)
    (newObj : Obj)
    (Hdec : decode t (req_object req) = Some obj)
    (Hacc : meta_accessor obj = Some a)
    (Hold : decoded_old t req = Some old)
    (Hpred : EvalGeneric obj predicates = true)
    (Hmut : Mutate m ctx obj old = (newObj, None))
    (Hnot_validator : mutator_is_validator m = false)
    (Hchanged : semantic_deep_equal obj newObj = false) :
  match json_marshal obj, json_marshal newObj with
  | Some before, Some after =>
      (exists ops, response (handle ctx req m t predicates) = (Patched ops : Resp) /\
                   apply_patch before ops = Some after) \/
      (create_patch before after = None /\
       response (handle ctx req m t predicates) =
         (Errored StatusInternalServerError ErrCreatePatch : Resp))
  | _, _ =>
      response (handle ctx req m t predicates) =
        (Errored StatusInternalServerError ErrMarshal : Resp)
  end.
Proof.
  destruct (handle_reaches_mutate ctx req m t predicates obj a old Hdec Hacc Hold
              Hpred) as [Hresp _].
  rewrite Hresp, Hmut. unfold shaped. rewrite Hnot_validator, Hchanged. simpl.
  destruct (json_marshal obj) as [before|], (json_marshal newObj) as [after|];
    try reflexivity.
  unfold PatchResponseFromRaw.
  destruct (create_patch before after) as [ops|] eqn:Hcp.
  - left. exists ops. split; [done|]. by apply Hlib.
  - right. done.
Qed.

(** ** Build *)

Lemma fold_set_entry_lookup (m : @Mutator Obj Ctx Err)
    (l : list (GroupVersionKind * Obj)) (h : @handler Obj Ctx Err)
    (g : GroupVersionKind) :
  NoDup l.*1 ->
  (h_typesMap (fold_left (set_entry m) l h) !! g,
   h_mutatorMap (fold_left (set_entry m) l h) !! g) =
  match (list_to_map l : gmap GroupVersionKind Obj) !! g with
  | Some o => (Some o, Some m)
  | None => (h_typesMap h !! g, h_mutatorMap h !! g)
  end.
Proof.
  revert h. induction l as [|[k o] l IH]; intros h Hnd; simpl;
    [by rewrite lookup_empty|].
  apply NoDup_cons in Hnd as [Hk Hnd].
  rewrite IH by done. unfold set_entry; simpl. rewrite lookup_insert.
  case_decide; subst.
  - rewrite not_elem_of_list_to_map_1 by done. by rewrite !lookup_insert_eq.
  - rewrite !lookup_insert_ne by done. by destruct (list_to_map l !! g).
Qed.

(** The types map of one mutator's list keeps, per identifier, the last type
    of the list declaring it. *)
Lemma buildTypesMap_loop_decl (m : @Mutator Obj Ctx Err) (g : GroupVersionKind)
    (ts : list Obj) (tm0 tm : gmap GroupVersionKind Obj)
    (acc0 acc : option (@Mutator Obj Ctx Err * Obj)) :
  buildTypesMap_loop ts tm0 = Some tm ->
  match tm0 !! g with None => acc = acc0 | Some t0 => acc = Some (m, t0) end ->
  decl_step g acc (m, ts) =
    match tm !! g with Some t => Some (m, t) | None => acc0 end.
Proof.
  unfold decl_step; simpl.
  revert tm0 acc. induction ts as [|t ts IH]; intros tm0 acc Hloop Hinv; simpl in *.
  - injection Hloop as <-. by destruct (tm0 !! g).
  - destruct (GVKForObject t) as [k|] eqn:Hk; [|discriminate].
    apply (IH _ _ Hloop). rewrite lookup_insert.
    case_decide; subst; [by rewrite bool_decide_eq_true_2|].
    rewrite bool_decide_eq_false_2; [done|congruence].
Qed.

Lemma build_loop_lookup (g : GroupVersionKind)
    (order : list (@Mutator Obj Ctx Err * list Obj)) (h h' : @handler Obj Ctx Err)
    (acc : option (@Mutator Obj Ctx Err * Obj)) :
  (h_typesMap h !! g, h_mutatorMap h !! g) = (snd <$> acc, fst <$> acc) ->
  build_loop order h = Some h' ->
  (h_typesMap h' !! g, h_mutatorMap h' !! g) =
    (snd <$> fold_left (decl_step g) order acc,
     fst <$> fold_left (decl_step g) order acc).
Proof.
  revert h acc. induction order as [|[m ts] order IH]; intros h acc Hinv Hloop;
    simpl in *; [by injection Hloop as <-|].
  unfold buildTypesMap in Hloop.
  destruct (buildTypesMap_loop ts ∅) as [tm|] eqn:Htm; [|discriminate].
  eapply IH; [|exact Hloop].
  rewrite fold_set_entry_lookup by apply NoDup_fst_map_to_list.
  rewrite list_to_map_to_list.
  rewrite (buildTypesMap_loop_decl m g ts ∅ tm acc acc Htm)
    by (rewrite lookup_empty; done).
  by destruct (tm !! g).
Qed.

Lemma buildTypesMap_loop_Some (ts : list Obj) (tm0 : gmap GroupVersionKind Obj) :
  is_Some (buildTypesMap_loop ts tm0) <->
  forall t, t ∈ ts -> is_Some (GVKForObject t).
Proof.
  revert tm0. induction ts as [|t ts IH]; intros tm0; simpl.
  - split; [|done]. intros _ t Ht. by apply not_elem_of_nil in Ht.
  - destruct (GVKForObject t) as [k|] eqn:Hk.
    + rewrite IH. split.
      * intros Hall t' Ht'. apply elem_of_cons in Ht' as [->|Ht']; [by rewrite Hk|].
        by apply Hall.
      * intros Hall t' Ht'. apply Hall. by apply elem_of_cons; right.
    + split; [intros [? ?]; discriminate|].
      intros Hall. destruct (Hall t) as [? Hx]; [apply elem_of_cons; by left|].
      congruence.
Qed.

Lemma build_loop_Some (order : list (@Mutator Obj Ctx Err * list Obj))
    (h : @handler Obj Ctx Err) :
  is_Some (build_loop order h) <->
  forall m ts t, (m, ts) ∈ order -> t ∈ ts -> is_Some (GVKForObject t).
Proof.
  revert h. induction order as [|[m ts] order IH]; intros h; simpl.
  - split; [|done]. intros _ m ts t Hin. by apply not_elem_of_nil in Hin.
  - unfold buildTypesMap.
    pose proof (buildTypesMap_loop_Some ts ∅) as Hts.
    destruct (buildTypesMap_loop ts ∅) as [tm|] eqn:Htm.
    + rewrite IH. split.
      * intros Hall m' ts' t Hin Ht. apply elem_of_cons in Hin as [Heq|Hin].
        -- injection Heq as -> ->. apply Hts; [done|exact Ht].
        -- by apply (Hall m' ts').
      * intros Hall m' ts' t Hin Ht. apply (Hall m' ts'); [|done].
        by apply elem_of_cons; right.
    + split; [intros [? ?]; discriminate|]. intros Hall.
      assert (is_Some (@None (gmap GroupVersionKind Obj))) as [? ?]; [|discriminate].
      apply Hts. intros t Ht. apply (Hall m ts); [apply elem_of_cons; by left|done].
Qed.

(** C8: after a successful Build, whatever order it visited the builder's
    map in, every identifier of the Handler Registry has an entry in the Type
    Registry. *)
Theorem mutator_registry_has_type (b : @HandlerBuilder Obj Ctx Err)
    (h : @handler Obj Ctx Err) (Hbuild : BuildsTo b h) :
  forall g m, h_mutatorMap h !! g = Some m -> is_Some (h_typesMap h !! g).
Proof.
  destruct Hbuild as [order [_ Hb]]. intros g m Hm.
  unfold Build in Hb.
  pose proof (build_loop_lookup g order _ h None
                (f_equal2 pair (lookup_empty g) (lookup_empty g)) Hb) as Hl.
  injection Hl as Ht Hmut. rewrite Ht. rewrite Hmut in Hm.
  destruct (fold_left (decl_step g) order None); [done|discriminate].
Qed.

(** C9 (as amended): Build fails only when some declared type has no
    GroupVersionKind in the scheme, never because an identifier is declared
    twice; each identifier is mapped to the Mutator and prototype of its last
    declaration in Build's visiting order: mutators in the iteration order of
    the builder's map (which Go leaves unspecified), each mutator's types in
    the order they were added. *)
Theorem build_last_visited_declaration_wins (b : @HandlerBuilder Obj Ctx Err)
    (order : list (@Mutator Obj Ctx Err * list Obj)) :
  (is_Some (Build b order) <->
     forall m ts t, (m, ts) ∈ order -> t ∈ ts -> is_Some (GVKForObject t)) /\
  (forall h, Build b order = Some h -> forall g,
     h_typesMap h !! g = snd <$> last_decl order g /\
     h_mutatorMap h !! g = fst <$> last_decl order g).
Proof.
  split; [apply build_loop_Some|].
  intros h Hb g. unfold Build in Hb.
  pose proof (build_loop_lookup g order _ h None
                (f_equal2 pair (lookup_empty g) (lookup_empty g)) Hb) as Hl.
  injection Hl as Ht Hm. by split.
Qed.

End Properties.

(** * Further properties of handler.go *)

Section Extras.

Context {Obj Ctx Err Acc PatchOp : Type} `{!Runtime Obj Acc PatchOp}.

Abbreviation Resp := (Response Err PatchOp).
Abbreviation M := (@Mutator Obj Ctx Err).

(** ** Build *)

Lemma fold_set_entry_keeps_predicates (m : M) (l : list (GroupVersionKind * Obj))
    (h : @handler Obj Ctx Err) :
  h_predicates (fold_left (set_entry m) l h) = h_predicates h.
Proof.
  revert h. induction l as [|e l IH]; intros h; simpl; [done|]. by rewrite IH.
Qed.

Lemma build_loop_keeps_predicates (order : list (M * list Obj))
    (h h' : @handler Obj Ctx Err) :
  build_loop order h = Some h' -> h_predicates h' = h_predicates h.
Proof.
  revert h. induction order as [|[m ts] order IH]; intros h; simpl;
    [by intros [= <-]|].
  destruct (buildTypesMap ts); [|done].
  intros Hb. rewrite (IH _ Hb). apply fold_set_entry_keeps_predicates.
Qed.
(** X4: after a successful Build the Type Registry and the Handler Registry
    have the same identifiers. *)
Theorem Build_registries_same_keys (b : @HandlerBuilder Obj Ctx Err)
    (order : list (M * list Obj)) (h : @handler Obj Ctx Err)
    (Hb : Build b order = Some h) :
  dom (h_typesMap h) = dom (h_mutatorMap h).
Proof.
  apply set_eq. intros g. rewrite !elem_of_dom.
  unfold Build in Hb.
  pose proof (build_loop_lookup g order _ h None
                (f_equal2 pair (lookup_empty g) (lookup_empty g)) Hb) as Hl.
  injection Hl as Ht Hm. rewrite Ht, Hm.
  destruct (fold_left (decl_step g) order None) as [[m t]|]; simpl;
    split; intros [? Hx]; try discriminate; eauto.
Qed.

Lemma decl_step_skip (g : GroupVersionKind) (acc : option (M * Obj))
    (e : M * list Obj) :
  declares g e = false -> decl_step g acc e = acc.
Proof.
  destruct e as [m ts]. unfold decl_step, declares; simpl.
  revert acc. induction ts as [|t ts IH]; intros acc; simpl; [done|].
  intros [Ht Hts]%orb_false_iff. rewrite bool_decide_eq_false_2.
  - by apply IH.
  - intros Hg. by rewrite bool_decide_eq_true_2 in Ht.
Qed.

Lemma decl_step_indep (g : GroupVersionKind) (acc acc' : option (M * Obj))
    (e : M * list Obj) :
  declares g e = true -> decl_step g acc e = decl_step g acc' e.
Proof.
  destruct e as [m ts]. unfold decl_step, declares; simpl.
  revert acc acc'. induction ts as [|t ts IH]; intros acc acc'; simpl; [done|].
  case_bool_decide; simpl; [done|]. apply IH.
Qed.

Lemma fold_decl_skip (g : GroupVersionKind) (o : list (M * list Obj))
    (acc : option (M * Obj)) :
  (forall e, e ∈ o -> declares g e = false) ->
  fold_left (decl_step g) o acc = acc.
Proof.
  revert acc. induction o as [|e o IH]; intros acc Hall; simpl; [done|].
  rewrite decl_step_skip by (apply Hall; by apply elem_of_cons; left).
  apply IH. intros e' He'. apply Hall. by apply elem_of_cons; right.
Qed.

Lemma none_declares (g : GroupVersionKind) (o : list (M * list Obj)) :
  existsb (declares g) o = false -> forall e, e ∈ o -> declares g e = false.
Proof.
  intros Hex e He. destruct (declares g e) eqn:Hd; [|done].
  enough (existsb (declares g) o = true) by congruence.
  apply existsb_exists. exists e. split; [by apply list_elem_of_In|done].
Qed.

Lemma fold_decl_unique (g : GroupVersionKind) (o : list (M * list Obj))
    (acc : option (M * Obj)) (e0 : M * list Obj) :
  e0 ∈ o -> declares g e0 = true ->
  (forall e, e ∈ o -> declares g e = true -> e = e0) ->
  fold_left (decl_step g) o acc = decl_step g None e0.
Proof.
  revert acc. induction o as [|e o IH]; intros acc Hin Hd Huniq; simpl;
    [by apply not_elem_of_nil in Hin|].
  destruct (declares g e) eqn:He.
  - assert (e = e0) as ->.
    { apply Huniq; [by apply elem_of_cons; left|done]. }
    rewrite (decl_step_indep g acc None) by done.
    destruct (existsb (declares g) o) eqn:Hex.
    + apply existsb_exists in Hex as [e' [He' Hd']].
      apply list_elem_of_In in He'.
      assert (e' = e0) as <-.
      { apply Huniq; [by apply elem_of_cons; right|done]. }
      apply IH; [done|done|]. intros e'' He''. apply Huniq.
      by apply elem_of_cons; right.
    + by apply fold_decl_skip, none_declares.
  - rewrite decl_step_skip by done.
    apply elem_of_cons in Hin as [->|Hin]; [congruence|].
    apply IH; [done|done|]. intros e' He'. apply Huniq.
    by apply elem_of_cons; right.
Qed.

Lemma last_decl_perm (g : GroupVersionKind) (o1 o2 : list (M * list Obj)) :
  o1 ≡ₚ o2 ->
  (forall e1 e2, e1 ∈ o1 -> e2 ∈ o1 ->
     declares g e1 = true -> declares g e2 = true -> e1 = e2) ->
  last_decl o1 g = last_decl o2 g.
Proof.
  intros Hp Huniq. unfold last_decl.
  destruct (existsb (declares g) o1) eqn:Hex.
  - apply existsb_exists in Hex as [e0 [He0 Hd0]].
    apply list_elem_of_In in He0.
    rewrite !(fold_decl_unique g _ None e0); try done.
    + by rewrite <-Hp.
    + intros e He Hd. apply Huniq; [by rewrite Hp|done|done|done].
    + intros e He Hd. by apply Huniq.
  - pose proof (none_declares g o1 Hex) as Hnone.
    rewrite !fold_decl_skip; try done.
    intros e He. apply Hnone. by rewrite Hp.
Qed.

(** X5: when no identifier is declared by two different entries of the
    builder's map, Build gives the same result, success or failure, whatever
    order Go's map iteration visits the entries in. *)
Theorem Build_order_irrelevant (b : @HandlerBuilder Obj Ctx Err)
    (o1 o2 : list (M * list Obj))
    (Hp1 : o1 ≡ₚ b_mutatorMap b) (Hp2 : o2 ≡ₚ b_mutatorMap b)
    (Huniq : forall g e1 e2, e1 ∈ b_mutatorMap b -> e2 ∈ b_mutatorMap b ->
       declares g e1 = true -> declares g e2 = true -> e1 = e2) :
  Build b o1 = Build b o2.
Proof.
  assert (o1 ≡ₚ o2) as Hp by (by rewrite Hp1, Hp2).
  assert (forall g, last_decl o1 g = last_decl o2 g) as Hlast.
  { intros g. apply last_decl_perm; [done|].
    intros e1 e2 He1 He2. apply Huniq; by rewrite <-Hp1. }
  pose proof (build_loop_Some o1
    {| h_typesMap := ∅; h_mutatorMap := ∅; h_predicates := b_predicates b |})
    as Hs1.
  pose proof (build_loop_Some o2
    {| h_typesMap := ∅; h_mutatorMap := ∅; h_predicates := b_predicates b |})
    as Hs2.
  unfold Build.
  destruct (build_loop o1 _) as [h1|] eqn:Hb1, (build_loop o2 _) as [h2|] eqn:Hb2.
  - f_equal.
    pose proof (build_loop_keeps_predicates _ _ _ Hb1) as Hpr1.
    pose proof (build_loop_keeps_predicates _ _ _ Hb2) as Hpr2.
    assert (h_typesMap h1 = h_typesMap h2 /\ h_mutatorMap h1 = h_mutatorMap h2)
      as [Ht Hm].
    { split; apply map_eq; intros g;
        pose proof (build_loop_lookup g o1 _ h1 None
                      (f_equal2 pair (lookup_empty g) (lookup_empty g)) Hb1) as L1;
        pose proof (build_loop_lookup g o2 _ h2 None
                      (f_equal2 pair (lookup_empty g) (lookup_empty g)) Hb2) as L2;
        injection L1 as L1t L1m; injection L2 as L2t L2m;
        fold (last_decl o1 g) in *; fold (last_decl o2 g) in *;
        rewrite Hlast in *; congruence. }
    destruct h1, h2; simpl in *; congruence.
  - exfalso. try rewrite Hb1 in Hs1. try rewrite Hb2 in Hs2.
    pose proof (proj1 Hs1 ltac:(by eexists)) as Hall.
    destruct (proj2 Hs2) as [? ?]; [|discriminate].
    intros m ts t Hin Ht. apply (Hall m ts); [by rewrite Hp|done].
  - exfalso. try rewrite Hb1 in Hs1. try rewrite Hb2 in Hs2.
    pose proof (proj1 Hs2 ltac:(by eexists)) as Hall.
    destruct (proj2 Hs1) as [? ?]; [|discriminate].
    intros m ts t Hin Ht. apply (Hall m ts); [by rewrite <-Hp|done].
  - done.
Qed.

(** ** Handle *)

Lemma Handle_found (h : @handler Obj Ctx Err) (ctx : Ctx) (req : Request)
    (m : M) (t : Obj) :
  lookup_kind (req_kind req) (h_typesMap h) = Some t ->
  lookup_kind (req_kind req) (h_mutatorMap h) = Some m ->
  Handle h ctx req = handle ctx req m t (h_predicates h).
Proof.
  intros Ht Hm. unfold Handle. rewrite Ht, Hm. flow_simpl.
  by destruct (handle ctx req m t (h_predicates h)).
Qed.

Lemma decl_step_origin (g : GroupVersionKind) (acc : option (M * Obj))
    (m : M) (ts : list Obj) (x : M * Obj) :
  decl_step g acc (m, ts) = Some x ->
  acc = Some x \/ (x.1 = m /\ x.2 ∈ ts /\ GVKForObject x.2 = Some g).
Proof.
  unfold decl_step; simpl. revert acc.
  induction ts as [|t ts IH]; intros acc; simpl; [by left|].
  intros Hx. destruct (IH _ Hx) as [Hacc|[? [? ?]]].
  - case_bool_decide; [|by left]. injection Hacc as <-. right.
    split; [done|]. split; [by apply elem_of_cons; left|done].
  - right. split; [done|]. split; [by apply elem_of_cons; right|done].
Qed.

Lemma fold_decl_origin (g : GroupVersionKind) (o : list (M * list Obj))
    (acc : option (M * Obj)) (m : M) (t : Obj) :
  fold_left (decl_step g) o acc = Some (m, t) ->
  acc = Some (m, t) \/
  exists ts, (m, ts) ∈ o /\ t ∈ ts /\ GVKForObject t = Some g.
Proof.
  revert acc. induction o as [|[m' ts] o IH]; intros acc; simpl; [by left|].
  intros Hx. destruct (IH _ Hx) as [Hacc|[ts' [Hin Hrest]]].
  - destruct (decl_step_origin g _ m' ts (m, t) Hacc) as [?|[Hm [Ht Hg]]];
      [by left|].
    simpl in *; subst. right. exists ts. split; [|done].
    by apply elem_of_cons; left.
  - right. exists ts'. split; [|done]. by apply elem_of_cons; right.
Qed.

Lemma last_decl_origin (g : GroupVersionKind) (o : list (M * list Obj))
    (m : M) (t : Obj) :
  last_decl o g = Some (m, t) ->
  exists ts, (m, ts) ∈ o /\ t ∈ ts /\ GVKForObject t = Some g.
Proof.
  intros Hx. by destruct (fold_decl_origin g o None m t Hx).
Qed.

(** X6: a built handler either rejects a request as an unexpected kind
    without calling anything, or handles it with a Mutator and a prototype
    that the same entry of the builder registered together, the prototype's
    identifier being the request's kind or its internal version. *)
Theorem Handle_registered_pair (b : @HandlerBuilder Obj Ctx Err)
    (order : list (M * list Obj)) (h : @handler Obj Ctx Err)
    (Hb : Build b order = Some h) (ctx : Ctx) (req : Request) :
  Handle h ctx req =
    ([], inl (Errored StatusBadRequest (ErrUnexpectedKind (req_kind req)))) \/
  exists m ts t, (m, ts) ∈ order /\ t ∈ ts /\
    (GVKForObject t = Some (req_kind req) \/
     GVKForObject t = Some (internal_gvk (req_kind req))) /\
    Handle h ctx req = handle ctx req m t (h_predicates h).
Proof.
  unfold Build in Hb.
  pose proof (build_loop_lookup (req_kind req) order _ h None
                (f_equal2 pair (lookup_empty _) (lookup_empty _)) Hb) as L1.
  pose proof (build_loop_lookup (internal_gvk (req_kind req)) order _ h None
                (f_equal2 pair (lookup_empty _) (lookup_empty _)) Hb) as L2.
  injection L1 as L1t L1m. injection L2 as L2t L2m.
  fold (last_decl order (req_kind req)) in *.
  fold (last_decl order (internal_gvk (req_kind req))) in *.
  destruct (last_decl order (req_kind req)) as [[m t]|] eqn:D1.
  - right. destruct (last_decl_origin _ _ _ _ D1) as [ts [Hin [Ht Hg]]].
    exists m, ts, t. split; [done|]. split; [done|]. split; [by left|].
    apply Handle_found; rewrite lookup_kind_spec; [by rewrite L1t|by rewrite L1m].
  - destruct (last_decl order (internal_gvk (req_kind req))) as [[m t]|] eqn:D2.
    + right. destruct (last_decl_origin _ _ _ _ D2) as [ts [Hin [Ht Hg]]].
      exists m, ts, t. split; [done|]. split; [done|]. split; [by right|].
      apply Handle_found; rewrite lookup_kind_spec;
        [by rewrite L1t, L2t|by rewrite L1m, L2m].
    + left. unfold Handle. rewrite lookup_kind_spec, L1t, L2t. done.
Qed.

(** X7: when both registries hold the request's kind itself, Handle uses
    those entries, even if entries for the internal version of the kind
    exist too. *)
Theorem Handle_exact_match_first (h : @handler Obj Ctx Err) (ctx : Ctx)
    (req : Request) (m : M) (t : Obj)
    (Ht : h_typesMap h !! req_kind req = Some t)
    (Hm : h_mutatorMap h !! req_kind req = Some m) :
  Handle h ctx req = handle ctx req m t (h_predicates h).
Proof.
  apply Handle_found; rewrite lookup_kind_spec; [by rewrite Ht|by rewrite Hm].
Qed.

(** X8: a handler built from a builder with nothing registered rejects every
    request with Deny(400), reporting its kind as unexpected, before decoding
    anything. *)
Theorem empty_builder_rejects_all (h : @handler Obj Ctx Err)
    (Hb : BuildsTo (@NewBuilder Obj Ctx Err) h) (ctx : Ctx) (req : Request) :
  Handle h ctx req =
    ([], inl (Errored StatusBadRequest (ErrUnexpectedKind (req_kind req)))).
Proof.
  destruct Hb as [order [Hp Hb]]. simpl in Hp.
  symmetry in Hp. apply Permutation_nil in Hp as ->. injection Hb as <-.
  unfold Handle. rewrite lookup_kind_spec. simpl. by rewrite !lookup_empty.
Qed.

(** ** handle *)


(** X10: when Mutate returns an error, the response is Deny(400) carrying
    that error, whatever object Mutate returned. *)
Theorem mutate_error_denies (ctx : Ctx) (req : Request) (m : M) (t : Obj)
    (predicates : list Predicate) (obj : Obj) (a : Acc) (old : option Obj)
    (newObj : Obj) (e : Err)
    (Hdec : decode t (req_object req) = Some obj)
    (Hacc : meta_accessor obj = Some a)
    (Hold : decoded_old t req = Some old)
    (Hpred : EvalGeneric obj predicates = true)
    (Hmut : Mutate m ctx obj old = (newObj, Some e)) :
  response (handle ctx req m t predicates) =
    (Errored StatusBadRequest (ErrMutate e) : Resp).
Proof.
  destruct (handle_reaches_mutate ctx req m t predicates obj a old Hdec Hacc Hold Hpred)
    as [-> _].
  unfold shaped. by rewrite Hmut.
Qed.

(** X11: handle answers with status 500 only after calling Mutate, for a
    Mutator not made by the Validator Adapter, when serialising an object
    or computing the patch failed; every other Deny is a 400. *)
Theorem handle_internal_error_only_after_mutate (ctx : Ctx) (req : Request)
    (m : M) (t : Obj) (predicates : list Predicate) (code : Z)
    (reason : ErrorReason Err) :
  response (handle ctx req m t predicates) = (Errored code reason : Resp) ->
  code = StatusBadRequest \/
  (code = StatusInternalServerError /\
   CallMutate ∈ calls (handle ctx req m t predicates) /\
   mutator_is_validator m = false /\
   (reason = ErrMarshal \/ reason = ErrCreatePatch)).
Proof.
  unfold handle, PatchResponseFromRaw. repeat flow_step; flow_simpl;
    intros Hr; try discriminate; injection Hr as <- <-;
    first [by left | right; split; [done|]; split; [set_solver|];
      split; [by destruct (mutator_is_validator m)|by auto]].
Qed.

(** ** InjectFunc *)

Lemma InjectFunc_ok {E} (f : M -> option E) (l : list M) :
  ((InjectFunc f l).2 = None <-> forall m, m ∈ l -> f m = None) /\
  ((InjectFunc f l).2 = None -> (InjectFunc f l).1 = l).
Proof.
  induction l as [|m l [IH1 IH2]]; simpl.
  - split; [|done]. split; [|done]. intros _ m Hm. by apply not_elem_of_nil in Hm.
  - destruct (f m) as [e|] eqn:Hf; simpl.
    + split; [|done]. split; [done|]. intros Hall.
      rewrite Hall in Hf; [done|by apply elem_of_cons; left].
    + destruct (InjectFunc f l) as [called r]; simpl in *. split.
      * rewrite IH1. split.
        -- intros Hall m' Hm'. apply elem_of_cons in Hm' as [->|Hm']; [done|].
           by apply Hall.
        -- intros Hall m' Hm'. apply Hall. by apply elem_of_cons; right.
      * intros Hr. by rewrite IH2.
Qed.

Lemma InjectFunc_err {E} (f : M -> option E) (l called : list M) (e : E) :
  InjectFunc f l = (called, Some (InjectWrap e)) ->
  exists before m, called = before ++ [m] /\ m ∈ l /\ f m = Some e /\
    forall m', m' ∈ before -> f m' = None.
Proof.
  revert called. induction l as [|m l IH]; intros called; simpl; [done|].
  destruct (f m) as [e'|] eqn:Hf.
  - intros [= <- <-]. exists [], m. split; [done|].
    split; [by apply elem_of_cons; left|]. split; [done|].
    intros m' Hm'. by apply not_elem_of_nil in Hm'.
  - destruct (InjectFunc f l) as [called' r] eqn:Hl.
    intros [= <- ->].
    destruct (IH called' eq_refl) as [before [m' [-> [Hin [Hm' Hb]]]]].
    exists (m :: before), m'. split; [done|].
    split; [by apply elem_of_cons; right|]. split; [done|].
    intros m'' Hm''. apply elem_of_cons in Hm'' as [->|Hm'']; [done|].
    by apply Hb.
Qed.

Lemma elem_of_mutator_values (h : @handler Obj Ctx Err) (m : M) :
  m ∈ (map_to_list (h_mutatorMap h)).*2 <->
  exists g, h_mutatorMap h !! g = Some m.
Proof.
  rewrite list_elem_of_fmap. split.
  - intros [[g m'] [-> Hin]]. exists g. by apply elem_of_map_to_list.
  - intros [g Hg]. exists (g, m). split; [done|]. by apply elem_of_map_to_list.
Qed.

(** X12: InjectFunc returns nil exactly when f succeeds on every Mutator of
    the Handler Registry, whatever order it visits them in; it then has
    called f once per identifier, so a Mutator serving several identifiers
    is injected once for each. *)
Theorem InjectFunc_success {E} (f : M -> option E) (h : @handler Obj Ctx Err)
    (order : list M) (Hord : order ≡ₚ (map_to_list (h_mutatorMap h)).*2) :
  ((InjectFunc f order).2 = None <->
     forall g m, h_mutatorMap h !! g = Some m -> f m = None) /\
  ((InjectFunc f order).2 = None ->
     (InjectFunc f order).1 ≡ₚ (map_to_list (h_mutatorMap h)).*2).
Proof.
  destruct (InjectFunc_ok f order) as [Hiff Hcalled]. split.
  - rewrite Hiff. split.
    + intros Hall g m Hg. apply Hall. rewrite Hord.
      apply elem_of_mutator_values. by exists g.
    + intros Hall m Hm. rewrite Hord, elem_of_mutator_values in Hm.
      destruct Hm as [g Hg]. by apply (Hall g).
  - intros Hr. by rewrite Hcalled.
Qed.

(** X13: when InjectFunc fails, it returns f's error (wrapped) for some
    Mutator of the Handler Registry, after calling f on that Mutator last,
    every earlier call having succeeded. *)
Theorem InjectFunc_failure {E} (f : M -> option E) (h : @handler Obj Ctx Err)
    (called : list M) (e : E)
    (Hinj : InjectFuncReturns f h (called, Some (InjectWrap e))) :
  exists before g m, called = before ++ [m] /\
    h_mutatorMap h !! g = Some m /\ f m = Some e /\
    forall m', m' ∈ before -> f m' = None.
Proof.
  destruct Hinj as [order [Hord Hinj]].
  destruct (InjectFunc_err f order called e Hinj)
    as [before [m [-> [Hin [Hf Hb]]]]].
  rewrite Hord, elem_of_mutator_values in Hin. destruct Hin as [g Hg].
  by exists before, g, m.
Qed.

End Extras.

(** * Concrete instances *)
Module Witnesses.
Import Widgets.

(** C1: the Validator Adapter never patches; on the sample validator, which
    doubles the size of what it validates, the response is Allow. *)
Example validator_example :
  response (handle tt (create_req kind_v1 raw_size1) (hybridValidator size_validator)
              widget_v1 []) = Allowed.
Proof. reflexivity. Qed.

(** The example of the spec: M doubles size 1 into size 2, and the patch takes
    the "before" JSON to the "after" JSON. *)
Example doubler_example :
  response (handle tt (create_req kind_v1 raw_size1) doubler widget_v1 []) =
    Patched [ReplaceDoc [Byte.x7b; Byte.x31; Byte.x31]].
Proof. reflexivity. Qed.

Lemma c10_witness :
  handle tt (create_req kind_v1 raw_size1) doubler widget_list [] =
    ([CallDecode; CallAccessor], inl (Errored StatusBadRequest ErrAccessor)).
Proof.
  apply (accessor_failure_denies tt (create_req kind_v1 raw_size1) doubler
           widget_list [] w_list_one); reflexivity.
Defined.

Lemma c7_witness :
  (response (handle tt (create_req kind_v1 raw_bad) doubler widget_v1 []) =
     Errored StatusBadRequest ErrDecode /\
   CallMutate ∉ calls (handle tt (create_req kind_v1 raw_bad) doubler widget_v1 [])) /\
  ((exists reason,
      response (handle tt (update_req kind_v1 raw_size1 raw_bad) doubler widget_v1 []) =
        Errored StatusBadRequest reason) /\
   CallMutate ∉ calls (handle tt (update_req kind_v1 raw_size1 raw_bad) doubler
                         widget_v1 [])).
Proof.
  split.
  - apply (proj1 (decode_failures_deny tt (create_req kind_v1 raw_bad) doubler
                    widget_v1 [])). reflexivity.
  - apply (proj2 (proj2 (decode_failures_deny tt (update_req kind_v1 raw_size1 raw_bad)
                           doubler widget_v1 []))).
    + discriminate.
    + reflexivity.
Defined.

Lemma c6_witness :
  Handle widget_handler tt (create_req (GVK "apps" "v1" "Gadget") raw_size1) =
    ([], inl (Errored StatusBadRequest
                (ErrUnexpectedKind (GVK "apps" "v1" "Gadget")))).
Proof.
  apply unrecognized_kind_denied; vm_compute; reflexivity.
Defined.

(** The v2 request falls back to the internal-version entry. *)
Lemma c5_witness :
  Handle widget_handler tt (create_req kind_v2 raw_size1) =
    handle tt (create_req kind_v2 raw_size1) doubler_with_validate widget_internal
      (h_predicates widget_handler).
Proof.
  apply internal_version_fallback; vm_compute; reflexivity.
Defined.

Lemma c4_witness :
  (CallMutate ∉ calls (handle tt (create_req kind_v1 raw_size1) doubler widget_v1
                         [fun _ => false])) /\
  response (handle tt (create_req kind_v1 raw_size1) doubler widget_v1
              [fun _ => false]) = Allowed /\
  response (handle tt (create_req kind_v1 raw_size1) doubler widget_list
              [fun _ => false]) = Errored StatusBadRequest ErrAccessor /\
  response (handle tt (update_req kind_v1 raw_size1 raw_bad) doubler widget_v1
              [fun _ => false]) = Errored StatusBadRequest ErrDecodeOld.
Proof.
  destruct (predicate_rejects_allow (Runtime0 := widget_runtime) tt (create_req kind_v1 raw_size1) doubler
              widget_v1 [fun _ => false] w_one (fun _ => false)
              ltac:(reflexivity) ltac:(constructor) ltac:(reflexivity))
    as [Hno [Hallow _]].
  destruct (predicate_rejects_allow (Runtime0 := widget_runtime) tt (create_req kind_v1 raw_size1) doubler
              widget_list [fun _ => false] w_list_one (fun _ => false)
              ltac:(reflexivity) ltac:(constructor) ltac:(reflexivity))
    as [_ [_ [Hacc _]]].
  destruct (predicate_rejects_allow (Runtime0 := widget_runtime) tt (update_req kind_v1 raw_size1 raw_bad) doubler
              widget_v1 [fun _ => false] w_one (fun _ => false)
              ltac:(reflexivity) ltac:(constructor) ltac:(reflexivity))
    as [_ [_ [_ Hold]]].
  split; [exact Hno|].
  split; [apply (Hallow ltac:(eexists; reflexivity) None); reflexivity|].
  split; [apply Hacc; reflexivity|].
  apply Hold; [eexists; reflexivity|reflexivity].
Defined.

(** The response-shaping rule on M (patch) and on the Mutator that also
    implements Validator (Allow). *)
Lemma c2_witness :
  (mutator_is_validator doubler = false -> semantic_deep_equal w_one w_two = false ->
   response (handle tt (create_req kind_v1 raw_size1) doubler widget_v1 []) =
     match json_marshal w_one, json_marshal w_two with
     | Some before, Some after => PatchResponseFromRaw before after
     | _, _ => Errored StatusInternalServerError ErrMarshal
     end) /\
  (mutator_is_validator doubler = true \/ semantic_deep_equal w_one w_two = true ->
   response (handle tt (create_req kind_v1 raw_size1) doubler widget_v1 []) = Allowed) /\
  (is_patch (response (handle tt (create_req kind_v1 raw_size1) doubler widget_v1 [])) = true ->
   mutator_is_validator doubler = false /\ semantic_deep_equal w_one w_two = false).
Proof.
  apply (response_shaping tt (create_req kind_v1 raw_size1) doubler widget_v1 []
           w_one tt None w_two); reflexivity.
Defined.

Lemma diff_apply_ops (before after : list Byte.byte) (ops : list Op) :
  @create_patch Widget unit Op widget_runtime before after = Some ops ->
  apply_ops before ops = Some after.
Proof.
  simpl. unfold diff, apply_ops. case_bool_decide as Heq; intros Hops;
    injection Hops as <-; simpl; congruence.
Qed.

Lemma c3_witness :
  match json_marshal w_one, json_marshal w_two with
  | Some before, Some after =>
      (exists ops, response (handle tt (create_req kind_v1 raw_size1) doubler widget_v1 [])
                     = Patched ops /\ apply_ops before ops = Some after) \/
      (create_patch before after = None /\
       response (handle tt (create_req kind_v1 raw_size1) doubler widget_v1 []) =
         Errored StatusInternalServerError ErrCreatePatch)
  | _, _ =>
      response (handle tt (create_req kind_v1 raw_size1) doubler widget_v1 []) =
        Errored StatusInternalServerError ErrMarshal
  end.
Proof.
  apply (patch_round_trip (Obj := Widget) (Acc := unit) apply_ops diff_apply_ops tt (create_req kind_v1 raw_size1)
           doubler widget_v1 [] w_one tt None w_two); reflexivity.
Defined.

Lemma widget_handler_built : BuildsTo widget_builder widget_handler.
Proof. exists (b_mutatorMap widget_builder). split; reflexivity. Qed.

Lemma c8_witness : is_Some (h_typesMap widget_handler !! kind_v1).
Proof.
  apply (mutator_registry_has_type widget_builder widget_handler widget_handler_built
           kind_v1 doubler).
  vm_compute. reflexivity.
Defined.

Lemma c9_witness :
  is_Some (Build duplicate_builder duplicate_order) /\
  (forall h, Build duplicate_builder duplicate_order = Some h ->
     h_typesMap h !! kind_v1 = snd <$> last_decl duplicate_order kind_v1 /\
     h_mutatorMap h !! kind_v1 = fst <$> last_decl duplicate_order kind_v1).
Proof.
  pose proof (build_last_visited_declaration_wins duplicate_builder duplicate_order)
    as [Hok Hlast].
  split.
  - apply Hok. intros m ts t Hin Ht.
    apply list_elem_of_In in Hin. simpl in Hin.
    destruct Hin as [Hin|[Hin|[]]]; injection Hin as _ <-;
      apply list_elem_of_singleton in Ht; subst t; vm_compute; eauto.
  - intros h Hb. apply Hlast, Hb.
Defined.

(** ** Further properties *)

Lemma widget_handler_Build :
  Build widget_builder (b_mutatorMap widget_builder) = Some widget_handler.
Proof. vm_compute. reflexivity. Qed.

Lemma x4_witness :
  dom (h_typesMap widget_handler) = dom (h_mutatorMap widget_handler).
Proof.
  apply (Build_registries_same_keys widget_builder (b_mutatorMap widget_builder)).
  exact widget_handler_Build.
Defined.

Lemma x5_witness :
  Build widget_builder (b_mutatorMap widget_builder) =
  Build widget_builder (rev (b_mutatorMap widget_builder)).
Proof.
  apply Build_order_irrelevant.
  - reflexivity.
  - symmetry. apply Permutation_rev.
  - intros g e1 e2 H1 H2 D1 D2.
    apply list_elem_of_In in H1, H2. vm_compute in H1, H2.
    destruct H1 as [<-|[<-|[<-|[]]]], H2 as [<-|[<-|[<-|[]]]]; try reflexivity;
      unfold declares in D1, D2; simpl in D1, D2;
      rewrite orb_false_r in D1, D2;
      apply bool_decide_eq_true in D1, D2; vm_compute in D1, D2;
      simplify_eq.
Defined.

Lemma x6_witness :
  Handle widget_handler tt (create_req kind_v2 raw_size1) =
    ([], inl (Errored StatusBadRequest (ErrUnexpectedKind kind_v2))) \/
  exists m ts t, (m, ts) ∈ b_mutatorMap widget_builder /\ t ∈ ts /\
    (GVKForObject t = Some kind_v2 \/ GVKForObject t = Some (internal_gvk kind_v2)) /\
    Handle widget_handler tt (create_req kind_v2 raw_size1) =
      handle tt (create_req kind_v2 raw_size1) m t (h_predicates widget_handler).
Proof.
  apply (Handle_registered_pair widget_builder). exact widget_handler_Build.
Defined.

Lemma x7_witness :
  Handle widget_handler tt (create_req kind_v1 raw_size1) =
    handle tt (create_req kind_v1 raw_size1) doubler widget_v1
      (h_predicates widget_handler).
Proof.
  apply Handle_exact_match_first; vm_compute; reflexivity.
Defined.

Lemma x8_witness :
  Handle empty_handler tt (create_req kind_v1 raw_size1) =
    ([], inl (Errored StatusBadRequest (ErrUnexpectedKind kind_v1))).
Proof.
  apply (empty_builder_rejects_all empty_handler).
  exists []. split; reflexivity.
Defined.

Lemma x10_witness :
  response (handle tt (create_req kind_v1 raw_size0) (hybridValidator size_validator)
              widget_v1 []) =
    Errored StatusBadRequest (ErrMutate "invalid size").
Proof.
  apply (mutate_error_denies (Acc := unit) (PatchOp := Op) tt
           (create_req kind_v1 raw_size0) (hybridValidator size_validator)
           widget_v1 [] widget_v1 tt None widget_v1); reflexivity.
Defined.

Lemma x11_witness :
  CallMutate ∈ calls (handle tt (create_req kind_v1 raw_size1) nan_setter widget_v1 [])
  /\ mutator_is_validator nan_setter = false.
Proof.
  destruct (handle_internal_error_only_after_mutate (Acc := unit) (PatchOp := Op)
              tt (create_req kind_v1 raw_size1) nan_setter widget_v1 []
              StatusInternalServerError ErrMarshal) as [Hc|[_ [Hin [Hv _]]]].
  - reflexivity.
  - discriminate.
  - by split.
Defined.

Lemma x12_witness :
  (InjectFunc inject_plain (map_to_list (h_mutatorMap shared_handler)).*2).2 = None /\
  (InjectFunc inject_plain (map_to_list (h_mutatorMap shared_handler)).*2).1
    ≡ₚ (map_to_list (h_mutatorMap shared_handler)).*2.
Proof.
  destruct (InjectFunc_success inject_plain shared_handler
              (map_to_list (h_mutatorMap shared_handler)).*2 ltac:(reflexivity))
    as [Hiff Hcalled].
  assert ((InjectFunc inject_plain
             (map_to_list (h_mutatorMap shared_handler)).*2).2 = None) as Hok
    by (vm_compute; reflexivity).
  split; [exact Hok|]. apply Hcalled, Hok.
Defined.

Lemma x13_witness :
  exists before g m,
    (InjectFunc inject_plain (map_to_list (h_mutatorMap widget_handler)).*2).1 =
      before ++ [m] /\
    h_mutatorMap widget_handler !! g = Some m /\
    inject_plain m = Some "validators take no injection" /\
    forall m', m' ∈ before -> inject_plain m' = None.
Proof.
  apply (InjectFunc_failure inject_plain widget_handler).
  exists (map_to_list (h_mutatorMap widget_handler)).*2. split; [reflexivity|].
  vm_compute. reflexivity.
Defined.

(** ** Counterexamples *)

(** C2: a Mutator registered with WithMutator, not made by the Validator
    Adapter, whose type also implements Validator, changes the object; the
    response is Allow without a patch. *)
Lemma c2_counterexample :
  (forall v : WValidator, doubler_with_validate <> hybridValidator v) /\
  Build dual_builder (b_mutatorMap dual_builder) = Some dual_handler /\
  decode widget_v1 raw_size1 = Some w_one /\
  Mutate doubler_with_validate tt w_one None = (w_two, None) /\
  semantic_deep_equal w_one w_two = false /\
  response (Handle dual_handler tt (create_req kind_v1 raw_size1)) = Allowed.
Proof.
  split; [|vm_compute; repeat split; reflexivity].
  intros v Heq. apply (f_equal (fun m => snd (mutator_key m))) in Heq.
  discriminate.
Qed.

(** C3: a Mutator that does not implement Validator sets a float field to
    NaN; json.Marshal fails and the response is Deny(500), not a patch. *)
Lemma c3_counterexample :
  mutator_is_validator nan_setter = false /\
  decode widget_v1 raw_size1 = Some w_one /\
  Mutate nan_setter tt w_one None = (w_one_nan, None) /\
  semantic_deep_equal w_one w_one_nan = false /\
  response (handle tt (create_req kind_v1 raw_size1) nan_setter widget_v1 []) =
    Errored StatusInternalServerError ErrMarshal.
Proof. vm_compute. repeat split; reflexivity. Qed.

(** C4: the new object decodes and the only predicate rejects it, but the
    old-object bytes are malformed: the response is Deny(400), not Allow. *)
Lemma c4_counterexample :
  decode widget_v1 raw_size1 = Some w_one /\
  (fun _ : Widget => false) w_one = false /\
  response (handle tt (update_req kind_v1 raw_size1 raw_bad) doubler widget_v1
              [fun _ => false]) = Errored StatusBadRequest ErrDecodeOld.
Proof. vm_compute. repeat split; reflexivity. Qed.

(** C9: M is registered before the NaN setter for the same identifier; when
    Go's map iteration visits the NaN setter first, the built handler maps
    the identifier to M, not to the most recently registered Mutator. *)
Lemma c9_counterexample :
  ~ (forall h, BuildsTo duplicate_builder h ->
       mutator_key <$> (h_mutatorMap h !! kind_v1) = Some (mutator_key nan_setter)).
Proof.
  intros Hclaim.
  destruct (Build duplicate_builder duplicate_order) as [h|] eqn:Hb;
    [|vm_compute in Hb; discriminate].
  assert (Hbuilt : BuildsTo duplicate_builder h).
  { exists duplicate_order. split; [|exact Hb]. vm_compute. apply perm_swap. }
  specialize (Hclaim h Hbuilt).
  vm_compute in Hb. injection Hb as <-. vm_compute in Hclaim. discriminate.
Qed.

End Witnesses.
